(** * tinytrace: the span lifecycle engine of [include/tinytrace/tinytrace.hpp]

    A shallow embedding of the header: the process-wide span counter, the
    thread-local [TraceContext], the [TraceBackend] singleton and the RAII
    guard [TraceSpan], followed by the properties of the specification that
    were checked against them.

    Conventions.
    - [uint64_t] values are integers in [Z]; the one arithmetic operation
      on them ([fetch_add]) has its reduction modulo [2^64] written out.
    - A [steady_clock::time_point] is the number of clock ticks since the
      clock's epoch; reading the clock is an input of the operation that
      reads it.
    - A C++ call returns, leaves by an exception, or ends the process
      ([std::terminate], [abort]): [outcome].
      Member functions are state transformers over the object they are
      called on; [zoom_context] and [zoom_backend] run them on the
      thread-local, respectively process-wide, instance. *)

From Stdlib Require Import ZArith Lia.
From stdpp Require Import gmap strings list.
From stdpp Require Import pretty.

Local Open Scope Z_scope.

(** ** Machine integers *)

Definition uint64_modulus : Z := 2 ^ 64.
Definition wrap64 (z : Z) : Z := z mod uint64_modulus.

(** ** Calls, exceptions and state *)

Inductive exn : Type :=
| runtime_error (what : string)
| ios_failure (what : string)
| bad_alloc.

Inductive outcome (S A : Type) : Type :=
| Returned (a : A) (s : S)
| Raised (e : exn) (s : S)
| Aborted (s : S).
Arguments Returned {S A} a s.
Arguments Raised {S A} e s.
Arguments Aborted {S A} s.

Definition M (S A : Type) : Type := S -> outcome S A.

Definition ret {S A} (a : A) : M S A := fun s => Returned a s.

Definition bind {S A B} (k : A -> M S B) (m : M S A) : M S B :=
  fun s => match m s with
           | Returned a s' => k a s'
           | Raised e s' => Raised e s'
           | Aborted s' => Aborted s'
           end.

Definition throw {S A} (e : exn) : M S A := fun s => Raised e s.

(** [try { m } catch (...) { handler }] *)
Definition try_catch {S A} (m : M S A) (handler : exn -> M S A) : M S A :=
  fun s => match m s with
           | Returned a s' => Returned a s'
           | Raised e s' => handler e s'
           | Aborted s' => Aborted s'
           end.

(** stdpp's monad notation: [x ← m; k] and [m;; k]. *)
#[global] Instance M_ret {S} : MRet (M S) := fun A => @ret S A.
#[global] Instance M_bind {S} : MBind (M S) := fun A B => @bind S A B.

Definition state_of {S A} (o : outcome S A) : S :=
  match o with Returned _ s => s | Raised _ s => s | Aborted s => s end.

Definition value_of {S A} (o : outcome S A) : option A :=
  match o with Returned a _ => Some a | _ => None end.

(** The call came back to its caller. *)
Definition returns {S A} (o : outcome S A) : Prop :=
  match o with Returned _ _ => True | _ => False end.

(** The call signalled an error: it threw, or it ended the process. *)
Definition signals_error {S A} (o : outcome S A) : Prop :=
  match o with Returned _ _ => False | _ => True end.

(** ** std::chrono

    [steady_clock::period] is implementation-defined.  The model covers the
    clocks whose tick divides the microsecond ([std::nano] for libstdc++,
    libc++ and the MSVC library): [ticks_per_us] ticks make one
    microsecond.  For such a period [duration_cast<microseconds>] is the
    integer division of the tick count by [ticks_per_us], and C++ integer
    division truncates toward zero ([Z.quot]). *)

Class SteadyClock : Type := {
  ticks_per_us : Z;
  ticks_per_us_pos : 0 < ticks_per_us
}.

Definition time_point : Type := Z.

Definition duration_cast_us `{SteadyClock} (ticks : Z) : Z :=
  Z.quot ticks ticks_per_us.

#[refine] Definition nanosecond_clock : SteadyClock := {| ticks_per_us := 1000 |}.
Proof. reflexivity. Defined.

(** ** SpanData *)

Definition thread_id_t : Type := nat.

Module SpanData.

Record t : Type := mk {
  name : string;
  span_id : Z;
  parent_id : Z;
  start_time : time_point;
  thread_id : thread_id_t
}.

End SpanData.

(** ** TraceContext: thread-local state for managing span nesting *)

Module TraceContext.

(** [span_stack_] is a [std::vector]: its back is the last element. *)
Record t : Type := mk {
  span_stack_ : list Z;
  current_span_id_ : Z
}.

(** [TraceContext() = default] with the default member initialisers. *)
Definition fresh : t := {| span_stack_ := []; current_span_id_ := 0 |}.

Definition current_span_id : M t Z :=
  fun c => Returned (current_span_id_ c) c.

(** The body of [push_span] is empty. *)
Definition push_span (span_id : Z) : M t unit :=
  fun c => Returned tt c.

(** [pop_span] takes no argument and its body is empty. *)
Definition pop_span : M t unit :=
  fun c => Returned tt c.

(** The back of the vector, when there is one. *)
Definition top (c : t) : option Z := last (span_stack_ c).

End TraceContext.

(** ** TraceBackend: handles output (stdout or file) *)

Module TraceBackend.

(** [file_output_] owns the open stream, named here by its path. *)
Record t : Type := mk {
  file_output_ : option string;
  use_file_ : bool
}.

Definition fresh : t := {| file_output_ := None; use_file_ := false |}.

(** The bodies of [set_output_file], [write_span] and [flush] are
    empty. *)
Definition set_output_file (path : string) : M t unit :=
  fun b => Returned tt b.

Definition write_span (json : string) : M t unit :=
  fun b => Returned tt b.

Definition flush : M t unit :=
  fun b => Returned tt b.

End TraceBackend.

(** ** The process

    [counter] is the function-local static of [TraceSpan::next_span_id],
    [contexts] the thread-local [TraceContext] of every thread that has
    used one, [backend] the [TraceBackend] singleton.  [console] and
    [files] are what the process has written: the lines on standard output
    and the contents of each file it created. *)

Record Process : Type := mkProcess {
  counter : Z;
  contexts : gmap thread_id_t TraceContext.t;
  backend : TraceBackend.t;
  console : list string;
  files : gmap string (list string)
}.

Definition process_start : Process :=
  {| counter := 1; contexts := ∅; backend := TraceBackend.fresh;
     console := []; files := ∅ |}.

Definition set_counter (z : Z) (p : Process) : Process :=
  {| counter := z; contexts := contexts p; backend := backend p;
     console := console p; files := files p |}.

Definition set_context (tid : thread_id_t) (c : TraceContext.t) (p : Process)
  : Process :=
  {| counter := counter p; contexts := <[tid := c]> (contexts p);
     backend := backend p; console := console p; files := files p |}.

Definition set_backend (b : TraceBackend.t) (p : Process) : Process :=
  {| counter := counter p; contexts := contexts p; backend := b;
     console := console p; files := files p |}.

(** [TraceContext::instance()] on thread [tid]: the thread's context,
    default-constructed at the first use. *)
Definition context_of (p : Process) (tid : thread_id_t) : TraceContext.t :=
  default TraceContext.fresh (contexts p !! tid).

(** [TraceContext::instance().m(...)] called on thread [tid]. *)
Definition zoom_context {A} (tid : thread_id_t) (m : M TraceContext.t A)
  : M Process A :=
  fun p => match m (context_of p tid) with
           | Returned a c => Returned a (set_context tid c p)
           | Raised e c => Raised e (set_context tid c p)
           | Aborted c => Aborted (set_context tid c p)
           end.

(** [TraceBackend::instance().m(...)]. *)
Definition zoom_backend {A} (m : M TraceBackend.t A) : M Process A :=
  fun p => match m (backend p) with
           | Returned a b => Returned a (set_backend b p)
           | Raised e b => Raised e (set_backend b p)
           | Aborted b => Aborted (set_backend b p)
           end.

(** ** TraceSpan: RAII span for measuring duration *)

Module TraceSpan.

Record t : Type := mk { data_ : SpanData.t }.

(** [static std::atomic<uint64_t> counter{1}; return counter.fetch_add(1)]:
    an atomic read-modify-write, so concurrent calls take effect one
    after the other, in the counter's modification order.  It returns the
    value read and stores that value plus one, modulo [2^64]. *)
Definition next_span_id : M Process Z :=
  fun p => Returned (counter p) (set_counter (wrap64 (counter p + 1)) p).

(** The body of [emit_span] is empty. *)
Definition emit_span (self : t) (duration : Z) : M Process unit :=
  fun p => Returned tt p.

(** [TraceSpan(std::string name)], run on thread [tid] with [now] the
    reading of [clock_type::now()].  The members of [data_] are
    initialised from a braced list, left to right. *)
Definition ctor (tid : thread_id_t) (now : time_point) (name : string)
  : M Process t :=
  id ← next_span_id;
  parent ← zoom_context tid TraceContext.current_span_id;
  let self := {| data_ := SpanData.mk name id parent now tid |} in
  zoom_context tid (TraceContext.push_span (SpanData.span_id (data_ self)));;
  mret self.

(** The first two statements of [~TraceSpan()]. *)
Definition elapsed `{SteadyClock} (self : t) (end_time : time_point) : Z :=
  duration_cast_us (end_time - SpanData.start_time (data_ self)).

(** The body of [~TraceSpan()], run on thread [tid] with [end_time] the
    reading of [clock_type::now()], with the member function that it calls
    last as [emit]: the duration is computed, the context is popped, and
    [emit] is called on this guard with the duration. *)
Definition dtor_with `{SteadyClock} (emit : t -> Z -> M Process unit)
    (tid : thread_id_t) (end_time : time_point) (self : t)
  : M Process unit :=
  let duration := elapsed self end_time in
  zoom_context tid TraceContext.pop_span;;
  emit self duration.

(** [~TraceSpan()]: the callee is [emit_span]. *)
Definition dtor `{SteadyClock} (tid : thread_id_t) (end_time : time_point)
    (self : t) : M Process unit :=
  dtor_with emit_span tid end_time self.

Definition span_id (self : t) : Z := SpanData.span_id (data_ self).
Definition parent_id (self : t) : Z := SpanData.parent_id (data_ self).

End TraceSpan.

(** ** Helpers *)

Definition set_trace_output (path : string) : M Process unit :=
  zoom_backend (TraceBackend.set_output_file path).

Definition flush_traces : M Process unit :=
  zoom_backend TraceBackend.flush.

(** ** Scopes

    [{ TraceSpan span(name); body }] on thread [tid]: the guard is
    constructed (clock reading [t0]), the body runs, and the guard is
    destroyed (clock reading [t1]) when control leaves the block, whether
    the body completed or returned ([Returned]) or an exception unwinds
    through the block ([Raised]).  Nothing is unwound when the body ended
    the process.  A destructor is [noexcept]: an exception leaving it calls
    [std::terminate]. *)

Definition run_dtor `{SteadyClock} {A} (tid : thread_id_t) (t1 : time_point)
    (self : TraceSpan.t) (leaving : Process -> outcome Process A)
  : M Process A :=
  fun p => match TraceSpan.dtor tid t1 self p with
           | Returned _ p' => leaving p'
           | Raised _ p' => Aborted p'
           | Aborted p' => Aborted p'
           end.

Definition with_span `{SteadyClock} {A} (tid : thread_id_t)
    (t0 t1 : time_point) (name : string) (body : TraceSpan.t -> M Process A)
  : M Process A :=
  fun p => match TraceSpan.ctor tid t0 name p with
           | Returned self p1 =>
               match body self p1 with
               | Returned a p2 => run_dtor tid t1 self (Returned a) p2
               | Raised e p2 => run_dtor tid t1 self (Raised e) p2
               | Aborted p2 => Aborted p2
               end
           | Raised e p1 => Raised e p1
           | Aborted p1 => Aborted p1
           end.

(** ** Runs

    What the instrumented application can do to the process through the
    header: create a span, destroy one, redirect the output, flush.  Each
    event names the thread it happens on and the clock reading it sees. *)

Inductive event : Type :=
| Create (tid : thread_id_t) (now : time_point) (name : string)
| Destroy (tid : thread_id_t) (now : time_point) (self : TraceSpan.t)
| SetOutput (path : string)
| Flush.

Definition step `{SteadyClock} (e : event) (p : Process) : Process :=
  match e with
  | Create tid now name => state_of (TraceSpan.ctor tid now name p)
  | Destroy tid now self => state_of (TraceSpan.dtor tid now self p)
  | SetOutput path => state_of (set_trace_output path p)
  | Flush => state_of (flush_traces p)
  end.

Definition run `{SteadyClock} (es : list event) (p : Process) : Process :=
  foldl (fun q e => step e q) p es.

(** The ids handed out when the threads of [sched] call [next_span_id] one
    after the other, in the order in which the atomic increments take
    effect. *)
Fixpoint allocate_all (sched : list thread_id_t) : M Process (list Z) :=
  match sched with
  | [] => mret []
  | _ :: rest =>
      id ← TraceSpan.next_span_id;
      ids ← allocate_all rest;
      mret (id :: ids)
  end.

(** The process after [n] calls of [next_span_id], and what the next call
    returns. *)
Definition after_calls (n : N) : Process :=
  N.iter n (fun p => state_of (TraceSpan.next_span_id p)) process_start.

Definition nth_span_id (n : N) : option Z :=
  value_of (TraceSpan.next_span_id (after_calls n)).

(** ** Scenarios of the test suite

    The clock readings are parameters: none of the checked values depends
    on them. *)

(** tests/test_nested_spans.cpp, "Nested spans have correct parent-child
    relationship": the values compared by its [REQUIRE]s, namely
    [parent.span_id()], [child.parent_id()] and [parent.parent_id()]. *)
Definition nested_parent_child `{SteadyClock} (t0 t1 t2 t3 : time_point)
  : M Process (Z * Z * Z) :=
  with_span 0%nat t0 t3 "parent_span" (fun parent =>
    let parent_id := TraceSpan.span_id parent in
    child_parent ← with_span 0%nat t1 t2 "child_span" (fun child =>
                     mret (TraceSpan.parent_id child));
    mret (parent_id, child_parent, TraceSpan.parent_id parent)).

(** tests/test_basic_span.cpp, "TraceSpan RAII cleanup on exception". *)
Definition cleanup_on_exception `{SteadyClock} (t0 t1 : time_point)
  : M Process unit :=
  try_catch
    (with_span 0%nat t0 t1 "will_throw" (fun _ =>
       throw (runtime_error "test exception")))
    (fun e => match e with
              | runtime_error _ => mret tt
              | _ => throw e
              end).

(** tests/test_basic_span.cpp, "Trace output can be redirected to file",
    up to the point where the test opens the file. *)
Definition test_file : string := "test_trace_output.jsonl".

Definition redirect_to_file `{SteadyClock} (t0 t1 : time_point)
  : M Process unit :=
  set_trace_output test_file;;
  with_span 0%nat t0 t1 "file_output_test" (fun _ => mret tt);;
  flush_traces.

(** ** The nesting contract of the specification

    [leave(id)] of the specification is [pop_span] called by the
    destructor of the guard whose id is [id].  The specification asks that
    it signals an error exactly when the top of the stack is not [id]. *)
Definition leave_detects_mismatch (c : TraceContext.t) (id : Z) : Prop :=
  signals_error (TraceContext.pop_span c) <-> TraceContext.top c <> Some id.

(** ** Inert processes

    Nothing has been written, the backend is as constructed, and every
    thread's context is as freshly constructed. *)
Definition inert (p : Process) : Prop :=
  console p = [] /\ files p = ∅ /\ backend p = TraceBackend.fresh
  /\ forall tid, context_of p tid = TraceContext.fresh.

(** ** Runs, continued: the guards a run creates

    The guards constructed by the [Create] events of a run, in the order of
    their construction. *)
Definition created_by `{SteadyClock} (e : event) (p : Process)
  : list TraceSpan.t :=
  match e with
  | Create tid now name =>
      match value_of (TraceSpan.ctor tid now name p) with
      | Some guard => [guard]
      | None => []
      end
  | _ => []
  end.

Fixpoint spans_of_run `{SteadyClock} (es : list event) (p : Process)
  : list TraceSpan.t :=
  match es with
  | [] => []
  | e :: rest => created_by e p ++ spans_of_run rest (step e p)
  end.

Definition is_create (e : event) : bool :=
  match e with Create _ _ _ => true | _ => false end.

Definition creations (es : list event) : nat :=
  length (filter (fun e => is_create e = true) es).

(** ** examples/cache_rpc_example.cpp

    The example service: [SimpleCache<int, std::string>], [RPCClient],
    [UserService] and the two request handlers.  An [int] is an integer of
    [Z] (the example does no arithmetic on user ids).  The model covers
    calls that do not overlap in time: the example takes no lock around the
    [unordered_map]. *)

(** [SimpleCache<int, std::string>::data_] *)
Record SimpleCache_t : Type := mkSimpleCache {
  data_ : gmap Z string
}.

(** [UserService]: [rpc_] is an [RPCClient], which has no members. *)
Record UserService_t : Type := mkUserService {
  cache_ : SimpleCache_t
}.

(** The application: the tracing state of the process, the one
    [UserService] of [main], and the readings that the coming calls of
    [steady_clock::now()] will return. *)
Record App : Type := mkApp {
  process : Process;
  service : UserService_t;
  readings : nat -> time_point
}.

Definition app_start (clock : nat -> time_point) : App :=
  {| process := process_start;
     service := {| cache_ := {| data_ := ∅ |} |};
     readings := clock |}.

Definition cache_of (s : App) : gmap Z string := data_ (cache_ (service s)).

(** [clock_type::now()] *)
Definition now : M App time_point :=
  fun s => Returned (readings s 0%nat)
             {| process := process s; service := service s;
                readings := fun k => readings s (S k) |}.

(** A call into the header. *)
Definition zoom_process {A} (m : M Process A) : M App A :=
  fun s =>
    let put p := {| process := p; service := service s;
                    readings := readings s |} in
    match m (process s) with
    | Returned a p => Returned a (put p)
    | Raised e p => Raised e (put p)
    | Aborted p => Aborted (put p)
    end.

(** A member function of the cache, called on [service.cache_]. *)
Definition zoom_cache {A} (m : M SimpleCache_t A) : M App A :=
  fun s =>
    let put c := {| process := process s; service := {| cache_ := c |};
                    readings := readings s |} in
    match m (cache_ (service s)) with
    | Returned a c => Returned a (put c)
    | Raised e c => Raised e (put c)
    | Aborted c => Aborted (put c)
    end.

(** [std::this_thread::sleep_for(d)] changes nothing in the program: the
    time that passes shows in the later readings of the clock. *)
Definition sleep_for (microseconds : Z) : M App unit := mret tt.

(** [sleep_for] of a duration drawn between two bounds. *)
Definition sleep_for_between (low high : Z) : M App unit := mret tt.

(** The guard leaves its scope on thread [tid]: [~TraceSpan()], then
    control goes where it was going. *)
Definition leave_scope `{SteadyClock} {A} (tid : thread_id_t)
    (self : TraceSpan.t) (leaving : App -> outcome App A) : M App A :=
  fun s => match (t1 ← now; zoom_process (TraceSpan.dtor tid t1 self)) s with
           | Returned _ s' => leaving s'
           | Raised _ s' => Aborted s'
           | Aborted s' => Aborted s'
           end.

(** [{ TraceSpan span(name); body }] and [{ TRACE_SPAN(name); body }] on
    thread [tid], in the application: as [with_span], with the clock read
    at construction and at destruction. *)
Definition traced `{SteadyClock} {A} (tid : thread_id_t) (name : string)
    (body : TraceSpan.t -> M App A) : M App A :=
  fun s => match (t0 ← now; zoom_process (TraceSpan.ctor tid t0 name)) s with
           | Returned self s1 =>
               match body self s1 with
               | Returned a s2 => leave_scope tid self (Returned a) s2
               | Raised e s2 => leave_scope tid self (Raised e) s2
               | Aborted s2 => Aborted s2
               end
           | Raised e s1 => Raised e s1
           | Aborted s1 => Aborted s1
           end.

Module SimpleCache.

(** [data_.find(key)], then [it->second] or [std::nullopt]. *)
Definition find (key : Z) : M SimpleCache_t (option string) :=
  fun c => Returned (data_ c !! key) c.

(** [data_[key] = value] *)
Definition assign (key : Z) (value : string) : M SimpleCache_t unit :=
  fun c => Returned tt {| data_ := <[key := value]> (data_ c) |}.

Definition get `{SteadyClock} (tid : thread_id_t) (key : Z)
  : M App (option string) :=
  traced tid "cache_get" (fun _ =>
    sleep_for 100;;
    zoom_cache (find key)).

Definition put `{SteadyClock} (tid : thread_id_t) (key : Z) (value : string)
  : M App unit :=
  traced tid "cache_put" (fun _ =>
    sleep_for 150;;
    zoom_cache (assign key value)).

End SimpleCache.

Module RPCClient.

(** ["User data for ID " + std::to_string(user_id)] *)
Definition user_data (user_id : Z) : string :=
  "User data for ID " +:+ pretty user_id.

(** The random engine and the distribution are locals of the block, and
    the latency drawn from [uniform_int_distribution<>(5, 20)] is only
    slept. *)
Definition fetch_user_data `{SteadyClock} (tid : thread_id_t) (user_id : Z)
  : M App string :=
  traced tid "rpc_fetch_user" (fun _ =>
    traced tid "serialize_request" (fun _ => sleep_for 50);;
    traced tid "network_roundtrip" (fun _ => sleep_for_between 5000 20000);;
    traced tid "deserialize_response" (fun _ => sleep_for 50);;
    mret (user_data user_id)).

Definition send_notification `{SteadyClock} (tid : thread_id_t)
    (user_id : Z) (message : string) : M App unit :=
  traced tid "rpc_send_notification" (fun _ =>
    traced tid "serialize_notification" (fun _ => sleep_for 30);;
    traced tid "network_send" (fun _ => sleep_for 2000)).

End RPCClient.

Module UserService.

Definition get_user `{SteadyClock} (tid : thread_id_t) (user_id : Z)
  : M App string :=
  traced tid "user_service_get" (fun _ =>
    cached ← SimpleCache.get tid user_id;
    match cached with
    | Some value => traced tid "cache_hit" (fun _ => mret value)
    | None =>
        traced tid "cache_miss" (fun _ =>
          user_data ← RPCClient.fetch_user_data tid user_id;
          SimpleCache.put tid user_id user_data;;
          mret user_data)
    end).

Definition notify_user `{SteadyClock} (tid : thread_id_t) (user_id : Z)
    (message : string) : M App unit :=
  traced tid "user_service_notify" (fun _ =>
    RPCClient.send_notification tid user_id message).

End UserService.

Definition handle_get_user_request `{SteadyClock} (tid : thread_id_t)
    (user_id : Z) : M App unit :=
  traced tid "handle_get_user_request" (fun _ =>
    traced tid "authenticate_request" (fun _ => sleep_for 1000);;
    traced tid "validate_user_id" (fun _ => sleep_for 50);;
    UserService.get_user tid user_id;;
    traced tid "serialize_response" (fun _ => sleep_for 200)).

Definition handle_notify_request `{SteadyClock} (tid : thread_id_t)
    (user_id : Z) : M App unit :=
  traced tid "handle_notify_request" (fun _ =>
    traced tid "authenticate_request" (fun _ => sleep_for 1000);;
    UserService.notify_user tid user_id "Hello!").

(** Requests served one after the other, as [main] does before it starts
    its threads. *)
Inductive request : Type :=
| GetUser (tid : thread_id_t) (user_id : Z)
| Notify (tid : thread_id_t) (user_id : Z).

Definition handle `{SteadyClock} (r : request) : M App unit :=
  match r with
  | GetUser tid user_id => handle_get_user_request tid user_id
  | Notify tid user_id => handle_notify_request tid user_id
  end.

Fixpoint serve `{SteadyClock} (rs : list request) : M App unit :=
  match rs with
  | [] => mret tt
  | r :: rest => handle r;; serve rest
  end.

(** The user ids that the [GetUser] requests of a list ask for. *)
Definition users_asked (rs : list request) : gset Z :=
  list_to_set (omap (fun r => match r with
                              | GetUser _ user_id => Some user_id
                              | Notify _ _ => None
                              end) rs).

(** The span counter after [k] more spans. *)
Definition advance (k : nat) (c : Z) : Z :=
  Nat.iter k (fun z => wrap64 (z + 1)) c.

(** Every cached entry is what the RPC backend returns for its key. *)
Definition consistent (m : gmap Z string) : Prop :=
  forall user_id value,
    m !! user_id = Some value -> value = RPCClient.user_data user_id.

(** [m], run in [s], returns [a], leaves the service as [svc] and has
    created [k] spans. *)
Definition behaves {A} (m : M App A) (s : App) (a : A)
    (svc : UserService_t) (k : nat) : Prop :=
  exists s',
    m s = Returned a s' /\ service s' = svc
    /\ counter (process s') = advance k (counter (process s)).

(** The state in which the body of a traced scope starts, and the guard
    it is given. *)
Definition entered (tid : thread_id_t) (name : string) (s : App)
  : TraceSpan.t * App :=
  match TraceSpan.ctor tid (readings s 0%nat) name (process s) with
  | Returned guard p =>
      (guard, {| process := p; service := service s;
                 readings := fun k => readings s (S k) |})
  | _ => ({| TraceSpan.data_ := SpanData.mk name 0 0 0 tid |}, s)
  end.

(** The state in which a traced scope is left. *)
Definition left_scope `{SteadyClock} (tid : thread_id_t) (self : TraceSpan.t) (s : App)
  : App :=
  {| process :=
       state_of (TraceSpan.dtor tid (readings s 0%nat) self (process s));
     service := service s;
     readings := fun k => readings s (S k) |}.

(** The numbers of [GetUser] and of [Notify] requests of a list. *)
Fixpoint count_gets (rs : list request) : nat :=
  match rs with
  | [] => 0
  | GetUser _ _ :: rest => S (count_gets rest)
  | Notify _ _ :: rest => count_gets rest
  end.

Fixpoint count_notifies (rs : list request) : nat :=
  match rs with
  | [] => 0
  | GetUser _ _ :: rest => count_notifies rest
  | Notify _ _ :: rest => S (count_notifies rest)
  end.

(** The spans of a list of requests served with the users of [cached] in
    the cache: 6 for a notification, 7 for a user request, and 5 more for
    each user that has to be fetched. *)
Definition spans_of_requests (rs : list request) (cached : gset Z) : nat :=
  6 * count_notifies rs + 7 * count_gets rs
  + 5 * size (users_asked rs ∖ cached).

(** * Properties *)

Ltac unfold_cxx :=
  unfold mbind, M_bind, bind, mret, M_ret, ret, zoom_context, zoom_backend,
    TraceContext.current_span_id, TraceContext.push_span,
    TraceContext.pop_span, TraceBackend.set_output_file,
    TraceBackend.write_span, TraceBackend.flush; simpl.

(** ** The identity allocator *)

Section Allocator.

Lemma wrap64_small z : 0 <= z < uint64_modulus -> wrap64 z = z.
Proof. intros Hz. unfold wrap64. now apply Z.mod_small. Qed.

Lemma wrap64_succ z : wrap64 (wrap64 z + 1) = wrap64 (z + 1).
Proof. unfold wrap64. now rewrite Zplus_mod_idemp_l. Qed.

Lemma next_span_id_value p :
  value_of (TraceSpan.next_span_id p) = Some (counter p).
Proof. reflexivity. Qed.

Lemma next_span_id_counter p :
  counter (state_of (TraceSpan.next_span_id p)) = wrap64 (counter p + 1).
Proof. reflexivity. Qed.

(** After [n] calls the counter holds [1 + n] modulo [2^64]. *)
Lemma counter_after_calls n :
  counter (after_calls n) = wrap64 (1 + Z.of_N n).
Proof.
  unfold after_calls.
  induction n as [|n IH] using N.peano_ind.
  - reflexivity.
  - rewrite N.iter_succ, next_span_id_counter, IH, wrap64_succ.
    f_equal. lia.
Qed.

Lemma nth_span_id_closed n : nth_span_id n = Some (wrap64 (1 + Z.of_N n)).
Proof.
  unfold nth_span_id. now rewrite next_span_id_value, counter_after_calls.
Qed.

(** Below the wrap-around the calls of a schedule return consecutive
    values, whichever threads make them. *)
Lemma allocate_all_consecutive sched : forall p,
  0 <= counter p ->
  counter p + Z.of_nat (length sched) <= uint64_modulus ->
  exists p', allocate_all sched p
             = Returned (seqZ (counter p) (Z.of_nat (length sched))) p'.
Proof.
  induction sched as [|tid rest IH]; intros p Hlo Hhi.
  - exists p. reflexivity.
  - assert (Hs : seqZ (counter p) (Z.of_nat (length (tid :: rest)))
                 = counter p :: seqZ (Z.succ (counter p))
                                     (Z.of_nat (length rest))).
    { rewrite seqZ_cons by (simpl length; lia).
      do 2 f_equal. simpl length. lia. }
    rewrite Hs. clear Hs.
    change (allocate_all (tid :: rest) p)
      with (bind (fun ids => ret (counter p :: ids)) (allocate_all rest)
              (set_counter (wrap64 (counter p + 1)) p)).
    set (p1 := set_counter (wrap64 (counter p + 1)) p).
    destruct rest as [|tid' rest'].
    + exists p1. simpl. now rewrite seqZ_nil by lia.
    + assert (Hc : counter p1 = Z.succ (counter p)).
      { subst p1. simpl counter.
        rewrite wrap64_small; [lia|]. simpl length in Hhi. lia. }
      destruct (IH p1) as [p' Hp'].
      * lia.
      * rewrite Hc. simpl length in *. lia.
      * unfold bind. rewrite Hp', Hc. exists p'. reflexivity.
Qed.

End Allocator.

Example allocate_on_three_threads :
  value_of (allocate_all [0; 1; 0; 2]%nat process_start) = Some [1; 2; 3; 4].
Proof. reflexivity. Qed.

(** C2, as amended.  From the start of the process, as long as no more
    than [2^64 - 1] calls of the identity allocator [next_span_id] are
    made (by whichever threads, in whichever order their atomic increments
    take effect), every call returns: the first value returned is 1, every
    value is strictly greater than every value returned before it, none is
    0 and all fit in 64 bits; so the values are pairwise distinct. *)
Theorem next_span_id_strictly_increasing (sched : list thread_id_t) :
  Z.of_nat (length sched) <= uint64_modulus - 1 ->
  exists ids p',
    allocate_all sched process_start = Returned ids p' /\
    length ids = length sched /\
    (forall id, head ids = Some id -> id = 1) /\
    (forall i j a b,
        (i < j)%nat -> ids !! i = Some a -> ids !! j = Some b -> a < b) /\
    (forall id, id ∈ ids -> 0 < id < uint64_modulus) /\
    NoDup ids.
Proof.
  intros Hlen.
  destruct (allocate_all_consecutive sched process_start) as [p' Hp'];
    [simpl; lia | simpl counter; lia |].
  simpl counter in Hp'.
  exists (seqZ 1 (Z.of_nat (length sched))), p'.
  split; [exact Hp'|].
  split; [rewrite length_seqZ; lia|].
  split.
  { intros id Hhd. destruct sched as [|tid rest].
    - rewrite seqZ_nil in Hhd by (simpl; lia). discriminate.
    - rewrite seqZ_cons in Hhd by (simpl length; lia). now inversion Hhd. }
  split.
  { intros i j a b Hij Ha Hb.
    apply lookup_seqZ in Ha as [-> _]. apply lookup_seqZ in Hb as [-> _]. lia. }
  split.
  { intros id Hin. apply elem_of_seqZ in Hin. lia. }
  apply NoDup_seqZ.
Qed.

Lemma next_span_id_strictly_increasing_witness :
  Z.of_nat (length [0; 1; 0; 2]%nat) <= uint64_modulus - 1 /\
  exists ids p',
    allocate_all [0; 1; 0; 2]%nat process_start = Returned ids p' /\
    length ids = length [0; 1; 0; 2]%nat /\
    (forall id, head ids = Some id -> id = 1) /\
    (forall i j a b,
        (i < j)%nat -> ids !! i = Some a -> ids !! j = Some b -> a < b) /\
    (forall id, id ∈ ids -> 0 < id < uint64_modulus) /\
    NoDup ids.
Proof.
  split.
  - vm_compute. discriminate.
  - apply (next_span_id_strictly_increasing [0; 1; 0; 2]%nat).
    vm_compute. discriminate.
Defined.

(** C2, as stated, fails at the wrap-around of the 64-bit counter: the call
    made after [2^64 - 1] earlier calls returns 0, which is neither greater
    than the value [2^64 - 1] returned just before it nor different from
    the reserved 0. *)
Lemma next_span_id_wraps_to_zero :
  ~ (forall (m n : N) (a b : Z),
        (m < n)%N -> nth_span_id m = Some a -> nth_span_id n = Some b ->
        a < b /\ b <> 0).
Proof.
  intros Hclaim.
  assert (Hm : nth_span_id (2 ^ 64 - 2) = Some (2 ^ 64 - 1))
    by (rewrite nth_span_id_closed; vm_compute; reflexivity).
  assert (Hn : nth_span_id (2 ^ 64 - 1) = Some 0)
    by (rewrite nth_span_id_closed; vm_compute; reflexivity).
  assert (Hlt : (2 ^ 64 - 2 < 2 ^ 64 - 1)%N) by (vm_compute; reflexivity).
  destruct (Hclaim _ _ _ _ Hlt Hm Hn) as [_ Hz].
  now apply Hz.
Qed.

(** ** The thread nesting context *)

Section Nesting.

(** Both [push_span] and [pop_span] return with the context as it was. *)
Lemma push_span_noop id c :
  TraceContext.push_span id c = Returned tt c.
Proof. reflexivity. Qed.

Lemma pop_span_noop c : TraceContext.pop_span c = Returned tt c.
Proof. reflexivity. Qed.

(** Entering and then leaving gives the context back, as it must when
    neither call changes it. *)
Lemma push_pop_round_trip id c :
  (TraceContext.push_span id;; TraceContext.pop_span) c = Returned tt c.
Proof. reflexivity. Qed.

End Nesting.

(** C4.  The claim wants [current_span_id()] to return [id] after
    [push_span(id)].  In the code [push_span] has an empty body: on a
    thread's fresh context, [current_span_id()] returns 0 after
    [push_span(id)] for every [id], so the claim fails for every nonzero
    [id] (for instance 5).  The other half holds: the fresh (empty)
    context reports 0. *)
Theorem push_span_leaves_current_zero (id : Z) :
  value_of ((TraceContext.push_span id;; TraceContext.current_span_id)
              TraceContext.fresh) = Some 0
  /\ value_of (TraceContext.current_span_id TraceContext.fresh) = Some 0.
Proof. split; reflexivity. Qed.

(** C6, as stated, fails: on the fresh context the stack is empty, so its
    top is not the id 1 of the guard being destroyed, and yet [pop_span]
    returns without signalling anything. *)
Lemma pop_span_on_empty_stack_is_silent :
  ~ leave_detects_mismatch TraceContext.fresh 1.
Proof.
  unfold leave_detects_mismatch. intros [_ Hsignal].
  apply Hsignal. discriminate.
Qed.

(** C6, as amended.  [pop_span] takes no id and has no diagnostic path:
    called on any context, whatever its stack holds, it returns to its
    caller without signalling an error; and so does the destructor that
    calls it, whatever the id of its guard, on any thread and in any
    state of the process. *)
Theorem pop_span_never_signals `{SteadyClock} (c : TraceContext.t)
    (tid : thread_id_t) (now : time_point) (self : TraceSpan.t)
    (p : Process) :
  returns (TraceContext.pop_span c)
  /\ returns (zoom_context tid TraceContext.pop_span p)
  /\ returns (TraceSpan.dtor tid now self p).
Proof. repeat split. Qed.

(** ** The guard *)

Section Guard.

(** The constructor returns: the guard holds the counter's value as its
    id, the thread's [current_span_id_] as its parent and the clock
    reading as its start; the counter has advanced, and the thread's
    context holds what it held. *)
Lemma ctor_returns tid now name p :
  TraceSpan.ctor tid now name p
  = Returned
      {| TraceSpan.data_ :=
           SpanData.mk name (counter p)
             (TraceContext.current_span_id_ (context_of p tid)) now tid |}
      (let p1 := set_counter (wrap64 (counter p + 1)) p in
       let p2 := set_context tid (context_of p1 tid) p1 in
       set_context tid (context_of p2 tid) p2).
Proof. reflexivity. Qed.


(** The destructor hands the elapsed time to [emit_span]. *)
Lemma dtor_unfold `{SteadyClock} tid end_time self :
  TraceSpan.dtor tid end_time self
  = (zoom_context tid TraceContext.pop_span;;
     TraceSpan.emit_span self (TraceSpan.elapsed self end_time)).
Proof. reflexivity. Qed.

(** The destructor leaves the sink as it finds it: nothing is added to
    standard output or to any file, and the backend is unchanged. *)
Lemma dtor_writes_nothing `{SteadyClock} tid end_time self p :
  exists p',
    TraceSpan.dtor tid end_time self p = Returned tt p'
    /\ console p' = console p /\ files p' = files p
    /\ backend p' = backend p /\ counter p' = counter p.
Proof. eexists. repeat split. Qed.

End Guard.

(** ** Runs of the instrumented application *)

Section Runs.

Context `{SteadyClock}.

Lemma inert_process_start : inert process_start.
Proof. repeat split. Qed.

Lemma context_of_set_context tid c p tid' :
  context_of (set_context tid c p) tid'
  = if decide (tid = tid') then c else context_of p tid'.
Proof.
  unfold context_of, set_context. simpl.
  rewrite lookup_insert. now destruct (decide (tid = tid')).
Qed.

Lemma context_of_set_counter_eq z p tid :
  context_of (set_counter z p) tid = context_of p tid.
Proof. reflexivity. Qed.

Lemma inert_set_context tid p :
  inert p -> inert (set_context tid (context_of p tid) p).
Proof.
  intros (Hc & Hf & Hb & Hctx). repeat split; try assumption.
  intros tid'. rewrite context_of_set_context.
  destruct (decide (tid = tid')); rewrite !Hctx; reflexivity.
Qed.

Lemma inert_set_counter z p : inert p -> inert (set_counter z p).
Proof. intros (Hc & Hf & Hb & Hctx). repeat split; assumption. Qed.

Lemma inert_set_backend p : inert p -> inert (set_backend (backend p) p).
Proof. intros (Hc & Hf & Hb & Hctx). repeat split; assumption. Qed.

Lemma step_inert e p : inert p -> inert (step e p).
Proof.
  intros Hp. destruct e as [tid now name | tid now self | path |]; simpl.
  - unfold TraceSpan.ctor, TraceSpan.next_span_id. unfold_cxx.
    now do 2 apply inert_set_context; apply inert_set_counter.
  - unfold TraceSpan.dtor, TraceSpan.dtor_with, TraceSpan.emit_span.
    unfold_cxx.
    now apply inert_set_context.
  - unfold set_trace_output. unfold_cxx. now apply inert_set_backend.
  - unfold flush_traces. unfold_cxx. now apply inert_set_backend.
Qed.

(** Whatever the application does through the header, the process stays
    inert. *)
Lemma run_inert es : forall p, inert p -> inert (run es p).
Proof.
  unfold run. induction es as [|e es IH]; intros p Hp; simpl.
  - exact Hp.
  - apply IH, step_inert, Hp.
Qed.

(** A span created after any run has parent id 0. *)
Lemma ctor_parent_id_zero es tid now name :
  exists self p',
    TraceSpan.ctor tid now name (run es process_start) = Returned self p'
    /\ TraceSpan.parent_id self = 0.
Proof.
  destruct (run_inert es process_start inert_process_start)
    as (_ & _ & _ & Hctx).
  do 2 eexists. split; [apply ctor_returns|].
  unfold TraceSpan.parent_id. simpl. now rewrite Hctx.
Qed.

End Runs.



(** C1.  The claim wants a nested span to carry the id of the enclosing
    span as its parent id.  In the code nothing ever writes
    [current_span_id_]: in the scenario of the test "Nested spans have
    correct parent-child relationship" the parent gets span id 1 and the
    child, created while the parent is active on the same thread, gets
    parent id 0 instead of 1.  (The root span's parent id is 0, as
    claimed.) *)
Theorem nested_child_parent_id_is_zero `{SteadyClock}
    (t0 t1 t2 t3 : time_point) :
  value_of (nested_parent_child t0 t1 t2 t3 process_start) = Some (1, 0, 0).
Proof. reflexivity. Qed.

(** C3.  The claim wants the destruction of a guard to submit one record
    to the sink on every exit path.  In the code [emit_span] has an empty
    body: in the scenario of the test "TraceSpan RAII cleanup on exception"
    the guard is destroyed by the unwinding, the exception is caught, and
    the process ends up with nothing on standard output, no file written
    and the backend untouched, so no record has reached the sink. *)
Theorem exception_scope_emits_no_record `{SteadyClock} (t0 t1 : time_point) :
  exists p',
    cleanup_on_exception t0 t1 process_start = Returned tt p'
    /\ console p' = [] /\ files p' = ∅
    /\ backend p' = TraceBackend.fresh.
Proof. eexists. repeat split. Qed.

(** C7.  The claim wants [emit] to serialise the record to one line and to
    write it to the configured destination.  In the code [emit_span],
    [write_span], [set_output_file] and [flush] have empty bodies:
    [emit_span] returns with the process as it was, for every record, and
    in the scenario of the test "Trace output can be redirected to file"
    the file named in [set_trace_output] does not exist after
    [flush_traces], nor has anything been written on standard output. *)
Theorem redirected_output_is_never_written `{SteadyClock}
    (t0 t1 : time_point) (self : TraceSpan.t) (duration : Z) (p : Process) :
  TraceSpan.emit_span self duration p = Returned tt p
  /\ exists p',
       redirect_to_file t0 t1 process_start = Returned tt p'
       /\ files p' !! test_file = None /\ console p' = []
       /\ TraceBackend.use_file_ (backend p') = false.
Proof. split; [reflexivity|]. eexists. repeat split. Qed.

(** C9.  Span creation, span destruction, record emission, output
    configuration and flush return to their caller in every state of the
    process: none throws and none ends the process.  A scope guarded by a
    span ends the way its body ends: it returns the body's value, or lets
    the body's own exception through, and adds no error of its own. *)
Theorem tracing_never_raises `{SteadyClock} (tid : thread_id_t)
    (t0 t1 : time_point) (name path json : string) (self : TraceSpan.t)
    (duration : Z) (p : Process) (A : Type)
    (body : TraceSpan.t -> M Process A) :
  returns (TraceSpan.ctor tid t0 name p)
  /\ returns (TraceSpan.dtor tid t1 self p)
  /\ returns (TraceSpan.emit_span self duration p)
  /\ returns (zoom_backend (TraceBackend.write_span json) p)
  /\ returns (set_trace_output path p)
  /\ returns (flush_traces p)
  /\ exists guard p1,
       TraceSpan.ctor tid t0 name p = Returned guard p1
       /\ match body guard p1 with
          | Returned a _ =>
              exists p3, with_span tid t0 t1 name body p = Returned a p3
          | Raised e _ =>
              exists p3, with_span tid t0 t1 name body p = Raised e p3
          | Aborted p2 => with_span tid t0 t1 name body p = Aborted p2
          end.
Proof.
  repeat (split; [exact I|]).
  do 2 eexists. split; [apply ctor_returns|].
  unfold with_span. rewrite ctor_returns.
  match goal with |- match ?b with _ => _ end => destruct b end;
    try (eexists; reflexivity); reflexivity.
Qed.

(** ** Durations *)

Section Durations.

Context `{SteadyClock}.

(** On a non-negative tick count the cast is the floor of the division. *)
Lemma duration_cast_us_nonneg ticks :
  0 <= ticks -> duration_cast_us ticks = ticks / ticks_per_us.
Proof.
  intros Ht. unfold duration_cast_us.
  apply Z.quot_div_nonneg; [exact Ht | exact ticks_per_us_pos].
Qed.




End Durations.

(** With a nanosecond clock: 10.25 ms are 10250 microseconds, 999 ns are
    0 microseconds and 1999 ns are 1 microsecond. *)
Example elapsed_sleep_10ms :
  @TraceSpan.elapsed nanosecond_clock
    {| TraceSpan.data_ := SpanData.mk "sleep_10ms" 1 0 5000 0%nat |} 10255000
  = 10250.
Proof. reflexivity. Qed.

Example elapsed_below_one_microsecond :
  @TraceSpan.elapsed nanosecond_clock
    {| TraceSpan.data_ := SpanData.mk "quick" 1 0 5000 0%nat |} 5999 = 0
  /\ @TraceSpan.elapsed nanosecond_clock
       {| TraceSpan.data_ := SpanData.mk "quick" 1 0 5000 0%nat |} 6999 = 1.
Proof. split; reflexivity. Qed.






(** * Further properties of the header *)

(** ** Runs: the guards they create *)

Section SpansOfRun.

Context `{SteadyClock}.

Lemma step_counter e p :
  counter (step e p)
  = if is_create e then wrap64 (counter p + 1) else counter p.
Proof. destruct e; reflexivity. Qed.

Lemma created_by_create tid now name p :
  created_by (Create tid now name) p
  = [{| TraceSpan.data_ :=
          SpanData.mk name (counter p)
            (TraceContext.current_span_id_ (context_of p tid)) now tid |}].
Proof. reflexivity. Qed.

Lemma creations_cons e es :
  creations (e :: es)
  = if is_create e then S (creations es) else creations es.
Proof.
  unfold creations. rewrite filter_cons.
  destruct (is_create e); simpl.
  - destruct (decide (true = true)); [reflexivity | congruence].
  - destruct (decide (false = true)); [discriminate | reflexivity].
Qed.

(** Below the wrap-around the guards of a run carry consecutive ids,
    whatever else happens between their constructions. *)
Lemma spans_of_run_ids es : forall p,
  0 <= counter p ->
  counter p + Z.of_nat (creations es) <= uint64_modulus ->
  TraceSpan.span_id <$> spans_of_run es p
  = seqZ (counter p) (Z.of_nat (creations es)).
Proof.
  induction es as [|e es IH]; intros p Hlo Hhi.
  - reflexivity.
  - simpl spans_of_run. rewrite fmap_app, creations_cons in *.
    destruct e as [tid now name | tid now self | path |];
      simpl is_create in *; cbv iota in *;
      try (match goal with
           | |- context [created_by ?e p] =>
               change (created_by e p) with (@nil TraceSpan.t)
           end;
           rewrite fmap_nil, app_nil_l;
           match goal with
           | |- context [step ?e p] =>
               replace (counter p) with (counter (step e p))
                 by apply step_counter
           end;
           apply IH; rewrite step_counter; assumption).
    rewrite created_by_create.
    rewrite seqZ_cons by lia.
    replace (Z.pred (Z.of_nat (S (creations es))))
      with (Z.of_nat (creations es)) by lia.
    assert (Hc : counter (step (Create tid now name) p)
                 = wrap64 (counter p + 1)) by apply step_counter.
    set (q := step (Create tid now name) p) in *.
    change (counter p :: (TraceSpan.span_id <$> spans_of_run es q)
            = counter p :: seqZ (Z.succ (counter p))
                             (Z.of_nat (creations es))).
    f_equal.
    destruct (creations es) as [|n] eqn:Hn.
    + rewrite seqZ_nil by lia.
      assert (Hnil : forall q, spans_of_run es q = []).
      { clear -Hn. induction es as [|e es IH]; intros q; [reflexivity|].
        rewrite creations_cons in Hn. simpl.
        destruct e; simpl in *; try discriminate; apply IH; assumption. }
      now rewrite Hnil.
    + rewrite wrap64_small in Hc by lia.
      rewrite IH; rewrite Hc; [f_equal; lia | lia | lia].
Qed.

(** In an inert process every new guard is a root. *)
Lemma spans_of_run_roots es : forall p,
  inert p ->
  Forall (fun guard => TraceSpan.parent_id guard = 0) (spans_of_run es p).
Proof.
  induction es as [|e es IH]; intros p Hp; cbn [spans_of_run].
  - constructor.
  - apply Forall_app. split; [|apply IH, step_inert, Hp].
    destruct e as [tid now name | | |]; [|constructor..].
    rewrite created_by_create.
    destruct Hp as (_ & _ & _ & Hctx).
    repeat constructor.
    unfold TraceSpan.parent_id. simpl. now rewrite Hctx.
Qed.

End SpansOfRun.

(** X1.  In every run from the start of the process that constructs no
    more than [2^64 - 1] guards, the guards carry the ids 1, 2, 3, ... in
    the order of their construction, whichever threads construct them and
    whatever destructions, output redirections and flushes happen in
    between; so the ids are pairwise distinct and none is 0. *)
Theorem run_span_ids_consecutive `{SteadyClock} (es : list event) :
  Z.of_nat (creations es) <= uint64_modulus - 1 ->
  let ids := TraceSpan.span_id <$> spans_of_run es process_start in
  ids = seqZ 1 (Z.of_nat (creations es))
  /\ length ids = creations es
  /\ NoDup ids
  /\ 0 ∉ ids.
Proof.
  intros Hn ids.
  assert (Hids : ids = seqZ 1 (Z.of_nat (creations es))).
  { subst ids. apply (spans_of_run_ids es process_start); simpl; lia. }
  rewrite Hids. split; [reflexivity|].
  split; [rewrite length_seqZ; lia|].
  split; [apply NoDup_seqZ|].
  rewrite elem_of_seqZ. lia.
Qed.

Lemma run_span_ids_consecutive_witness :
  let es := [Create 0%nat 10 "outer"; Create 1%nat 12 "other";
             Create 0%nat 15 "inner"; Flush;
             Destroy 0%nat 20
               {| TraceSpan.data_ := SpanData.mk "inner" 3 0 15 0%nat |};
             Create 0%nat 25 "sibling"] in
  Z.of_nat (creations es) <= uint64_modulus - 1 /\
  let ids := TraceSpan.span_id
               <$> @spans_of_run nanosecond_clock es process_start in
  ids = seqZ 1 (Z.of_nat (creations es))
  /\ length ids = creations es
  /\ NoDup ids
  /\ 0 ∉ ids.
Proof.
  intros es. split.
  - vm_compute. discriminate.
  - apply (@run_span_ids_consecutive nanosecond_clock es).
    vm_compute. discriminate.
Defined.

(** X2.  Whatever spans the application creates and destroys, on whatever
    threads, and however often it redirects the output or flushes, nothing
    is ever written on standard output or to a file, and the backend keeps
    no file and stays on standard output. *)
Theorem run_never_writes `{SteadyClock} (es : list event) :
  console (run es process_start) = []
  /\ files (run es process_start) = ∅
  /\ TraceBackend.file_output_ (backend (run es process_start)) = None
  /\ TraceBackend.use_file_ (backend (run es process_start)) = false.
Proof.
  destruct (run_inert es process_start inert_process_start)
    as (Hc & Hf & Hb & _).
  rewrite Hb. repeat split; assumption.
Qed.

(** X3.  Whatever the application has done before, every guard of a run is
    constructed with parent id 0, and [current_span_id()] returns 0 on
    every thread after the run. *)
Theorem run_spans_are_roots `{SteadyClock} (es : list event)
    (tid : thread_id_t) :
  Forall (fun guard => TraceSpan.parent_id guard = 0)
         (spans_of_run es process_start)
  /\ value_of (zoom_context tid TraceContext.current_span_id
                 (run es process_start)) = Some 0.
Proof.
  split.
  - apply spans_of_run_roots, inert_process_start.
  - destruct (run_inert es process_start inert_process_start)
      as (_ & _ & _ & Hctx).
    unfold zoom_context, TraceContext.current_span_id. simpl.
    now rewrite Hctx.
Qed.

(** ** Durations of nested scopes *)

Section NestedDurations.

Context `{SteadyClock}.

Lemma duration_cast_us_mono x y :
  x <= y -> duration_cast_us x <= duration_cast_us y.
Proof.
  intros Hxy. unfold duration_cast_us.
  apply Z.quot_le_mono; [exact ticks_per_us_pos | exact Hxy].
Qed.

Lemma duration_cast_us_superadditive x y :
  0 <= x -> 0 <= y ->
  duration_cast_us x + duration_cast_us y <= duration_cast_us (x + y).
Proof.
  intros Hx Hy. pose proof ticks_per_us_pos as Hpos.
  rewrite !duration_cast_us_nonneg by lia.
  apply Z.div_le_lower_bound; [exact Hpos|].
  pose proof (Z.mul_div_le x ticks_per_us Hpos).
  pose proof (Z.mul_div_le y ticks_per_us Hpos).
  lia.
Qed.

End NestedDurations.

(** X4.  When two scopes follow one another inside an enclosing scope (the
    clock readings at their constructions and destructions being in that
    order), their durations add up to no more than the duration of the
    enclosing scope. *)
Theorem child_durations_within_parent `{SteadyClock}
    (parent first second : TraceSpan.t)
    (end_first end_second end_parent : time_point) :
  SpanData.start_time (TraceSpan.data_ parent)
    <= SpanData.start_time (TraceSpan.data_ first) ->
  SpanData.start_time (TraceSpan.data_ first) <= end_first ->
  end_first <= SpanData.start_time (TraceSpan.data_ second) ->
  SpanData.start_time (TraceSpan.data_ second) <= end_second ->
  end_second <= end_parent ->
  TraceSpan.elapsed first end_first + TraceSpan.elapsed second end_second
  <= TraceSpan.elapsed parent end_parent.
Proof.
  intros H0 H1 H2 H3 H4. unfold TraceSpan.elapsed.
  etransitivity; [apply duration_cast_us_superadditive; lia|].
  apply duration_cast_us_mono. lia.
Qed.

Lemma child_durations_within_parent_witness :
  let parent := {| TraceSpan.data_ := SpanData.mk "parent" 1 0 0 0%nat |} in
  let first := {| TraceSpan.data_ := SpanData.mk "child_1" 2 0 100 0%nat |} in
  let second := {| TraceSpan.data_ := SpanData.mk "child_2" 3 0 2600 0%nat |} in
  (SpanData.start_time (TraceSpan.data_ parent)
     <= SpanData.start_time (TraceSpan.data_ first)
   /\ SpanData.start_time (TraceSpan.data_ first) <= 2000
   /\ 2000 <= SpanData.start_time (TraceSpan.data_ second)
   /\ SpanData.start_time (TraceSpan.data_ second) <= 4500
   /\ 4500 <= 5000)
  /\ @TraceSpan.elapsed nanosecond_clock first 2000
     + @TraceSpan.elapsed nanosecond_clock second 4500
     <= @TraceSpan.elapsed nanosecond_clock parent 5000.
Proof.
  intros parent first second. split.
  - simpl. lia.
  - apply (@child_durations_within_parent nanosecond_clock
             parent first second 2000 4500 5000); simpl; lia.
Defined.

(** X5.  A guard destroyed at least [k] microseconds after its construction
    hands a duration of at least [k] to [emit_span]. *)
Theorem duration_at_least `{SteadyClock} (self : TraceSpan.t)
    (end_time : time_point) (k : Z) :
  0 <= k ->
  k * ticks_per_us <= end_time - SpanData.start_time (TraceSpan.data_ self) ->
  k <= TraceSpan.elapsed self end_time.
Proof.
  intros Hk Hlive. pose proof ticks_per_us_pos as Hpos.
  unfold TraceSpan.elapsed.
  rewrite duration_cast_us_nonneg by nia.
  apply Z.div_le_lower_bound; [exact Hpos | lia].
Qed.

Lemma duration_at_least_witness :
  let self := {| TraceSpan.data_ := SpanData.mk "sleep_10ms" 1 0 700 0%nat |} in
  (0 <= 10000
   /\ 10000 * @ticks_per_us nanosecond_clock
      <= 10000941 - SpanData.start_time (TraceSpan.data_ self))
  /\ 10000 <= @TraceSpan.elapsed nanosecond_clock self 10000941.
Proof.
  intros self. split.
  - simpl. lia.
  - apply (@duration_at_least nanosecond_clock self 10000941 10000);
      simpl; lia.
Defined.

(** * The example service *)

(** ** Counting spans *)

Section Advance.

Lemma advance_succ k c : advance (S k) c = wrap64 (advance k c + 1).
Proof. reflexivity. Qed.

Lemma advance_add k1 k2 c : advance k2 (advance k1 c) = advance (k1 + k2) c.
Proof.
  induction k2 as [|k2 IH].
  - now rewrite Nat.add_0_r.
  - rewrite Nat.add_succ_r, !advance_succ. now rewrite IH.
Qed.

(** After at least one span the counter is the old value plus the number
    of spans, modulo [2^64]. *)
Lemma advance_wrap k c :
  advance (S k) c = wrap64 (c + Z.of_nat (S k)).
Proof.
  induction k as [|k IH].
  - reflexivity.
  - rewrite advance_succ, IH, wrap64_succ. f_equal. lia.
Qed.

End Advance.

(** ** How the operations of the example behave *)

Section Behaviour.

Context `{SteadyClock}.

Lemma behaves_ret {A} (a : A) s : behaves (mret a) s a (service s) 0.
Proof. exists s. repeat split. Qed.

Lemma behaves_bind {A B} (m : M App A) (f : A -> M App B) s a svc1 k1 b
    svc2 k2 :
  behaves m s a svc1 k1 ->
  (forall s1, service s1 = svc1 -> behaves (f a) s1 b svc2 k2) ->
  behaves (m ≫= f) s b svc2 (k1 + k2).
Proof.
  intros (s1 & Hm & Hsvc & Hc) Hf.
  destruct (Hf s1 Hsvc) as (s2 & Hfa & Hsvc2 & Hc2).
  exists s2. unfold mbind, M_bind, bind. rewrite Hm.
  repeat split; try assumption.
  now rewrite Hc2, Hc, advance_add.
Qed.

Lemma traced_unfold {A} tid name (body : TraceSpan.t -> M App A) s :
  traced tid name body s
  = match body (fst (entered tid name s)) (snd (entered tid name s)) with
    | Returned a s2 =>
        Returned a (left_scope tid (fst (entered tid name s)) s2)
    | Raised e s2 =>
        Raised e (left_scope tid (fst (entered tid name s)) s2)
    | Aborted s2 => Aborted s2
    end.
Proof.
  set (guard := fst (entered tid name s)).
  set (s1 := snd (entered tid name s)).
  change (traced tid name body s)
    with (match body guard s1 with
          | Returned a s2 => leave_scope tid guard (Returned a) s2
          | Raised e s2 => leave_scope tid guard (Raised e) s2
          | Aborted s2 => Aborted s2
          end).
  destruct (body guard s1); reflexivity.
Qed.

Lemma entered_service tid name s :
  service (snd (entered tid name s)) = service s.
Proof. reflexivity. Qed.

Lemma entered_counter tid name s :
  counter (process (snd (entered tid name s)))
  = advance 1 (counter (process s)).
Proof. reflexivity. Qed.

Lemma left_scope_service tid self s : service (left_scope tid self s) = service s.
Proof. reflexivity. Qed.

Lemma left_scope_counter tid self s :
  counter (process (left_scope tid self s)) = counter (process s).
Proof. reflexivity. Qed.

(** A traced scope behaves as its body does, with one span more. *)
Lemma behaves_traced {A} tid name (body : TraceSpan.t -> M App A) s a svc k :
  (forall self s1, service s1 = service s -> behaves (body self) s1 a svc k) ->
  behaves (traced tid name body) s a svc (S k).
Proof.
  intros Hbody.
  destruct (Hbody (fst (entered tid name s)) (snd (entered tid name s))
              (entered_service tid name s)) as (s2 & Hb & Hsvc & Hc).
  eexists. rewrite traced_unfold, Hb. split; [reflexivity|].
  rewrite left_scope_service, left_scope_counter, Hc, entered_counter.
  split; [exact Hsvc|]. now rewrite advance_add.
Qed.

Lemma behaves_sleep_for d s : behaves (sleep_for d) s tt (service s) 0.
Proof. apply behaves_ret. Qed.

Lemma behaves_sleep_for_between lo hi s :
  behaves (sleep_for_between lo hi) s tt (service s) 0.
Proof. apply behaves_ret. Qed.

(** A traced scope that only sleeps. *)
Lemma behaves_traced_sleep tid name d s :
  behaves (traced tid name (fun _ => sleep_for d)) s tt (service s) 1.
Proof.
  apply behaves_traced. intros _ s1 Hs1. rewrite <- Hs1. apply behaves_ret.
Qed.

Lemma behaves_get tid key s :
  behaves (SimpleCache.get tid key) s (cache_of s !! key) (service s) 1.
Proof.
  unfold SimpleCache.get.
  apply behaves_traced. intros _ s1 Hs1.
  exists s1. unfold cache_of. rewrite <- Hs1.
  destruct s1 as [p [c] r]. repeat split.
Qed.

Lemma behaves_put tid key value s :
  behaves (SimpleCache.put tid key value) s tt
    {| cache_ := {| data_ := <[key := value]> (cache_of s) |} |} 1.
Proof.
  unfold SimpleCache.put.
  apply behaves_traced. intros _ s1 Hs1.
  unfold cache_of. rewrite <- Hs1.
  eexists. split; [reflexivity|]. split; reflexivity.
Qed.

Lemma behaves_fetch_user_data tid user_id s :
  behaves (RPCClient.fetch_user_data tid user_id) s
    (RPCClient.user_data user_id) (service s) 4.
Proof.
  unfold RPCClient.fetch_user_data.
  apply behaves_traced. intros _ s1 Hs1. rewrite <- Hs1.
  apply (behaves_bind _ _ s1 tt (service s1) 1 _ _ 2);
    [apply behaves_traced_sleep|].
  intros s2 Hs2. rewrite <- Hs2.
  apply (behaves_bind _ _ s2 tt (service s2) 1 _ _ 1).
  { apply behaves_traced. intros _ s' Hs'. rewrite <- Hs'.
    apply behaves_sleep_for_between. }
  intros s3 Hs3. rewrite <- Hs3.
  apply (behaves_bind _ _ s3 tt (service s3) 1 _ _ 0);
    [apply behaves_traced_sleep|].
  intros s4 Hs4. rewrite <- Hs4. apply behaves_ret.
Qed.

Lemma behaves_send_notification tid user_id message s :
  behaves (RPCClient.send_notification tid user_id message) s tt
    (service s) 3.
Proof.
  unfold RPCClient.send_notification.
  apply behaves_traced. intros _ s1 Hs1. rewrite <- Hs1.
  apply (behaves_bind _ _ s1 tt (service s1) 1 _ _ 1);
    [apply behaves_traced_sleep|].
  intros s2 Hs2. rewrite <- Hs2. apply behaves_traced_sleep.
Qed.

Lemma behaves_get_user_hit tid user_id value s :
  cache_of s !! user_id = Some value ->
  behaves (UserService.get_user tid user_id) s value (service s) 3.
Proof.
  unfold UserService.get_user.
  intros Hhit. apply behaves_traced. intros _ s1 Hs1.
  assert (Hc1 : cache_of s1 !! user_id = Some value)
    by (unfold cache_of in *; now rewrite Hs1).
  rewrite <- Hs1.
  apply (behaves_bind _ _ s1 (Some value) (service s1) 1 _ _ 1).
  { rewrite <- Hc1. apply behaves_get. }
  intros s2 Hs2. rewrite <- Hs2.
  apply behaves_traced. intros _ s3 Hs3. rewrite <- Hs3. apply behaves_ret.
Qed.

Lemma behaves_get_user_miss tid user_id s :
  cache_of s !! user_id = None ->
  behaves (UserService.get_user tid user_id) s (RPCClient.user_data user_id)
    {| cache_ :=
         {| data_ := <[user_id := RPCClient.user_data user_id]> (cache_of s) |}
    |} 8.
Proof.
  unfold UserService.get_user.
  intros Hmiss. apply behaves_traced. intros _ s1 Hs1.
  assert (Hc1 : cache_of s1 = cache_of s)
    by (unfold cache_of; now rewrite Hs1).
  rewrite <- Hc1.
  apply (behaves_bind _ _ s1 None (service s1) 1 _ _ 6).
  { rewrite <- Hmiss, <- Hc1. apply behaves_get. }
  intros s2 Hs2.
  assert (Hc2 : cache_of s2 = cache_of s1)
    by (unfold cache_of; now rewrite Hs2).
  rewrite <- Hc2.
  apply behaves_traced. intros _ s3 Hs3.
  assert (Hc3 : cache_of s3 = cache_of s2)
    by (unfold cache_of; now rewrite Hs3).
  rewrite <- Hc3.
  apply (behaves_bind _ _ s3 (RPCClient.user_data user_id) (service s3) 4
           _ _ 1); [apply behaves_fetch_user_data|].
  intros s4 Hs4.
  assert (Hc4 : cache_of s4 = cache_of s3)
    by (unfold cache_of; now rewrite Hs4).
  rewrite <- Hc4.
  apply (behaves_bind _ _ s4 tt
           {| cache_ :=
                {| data_ := <[user_id := RPCClient.user_data user_id]>
                              (cache_of s4) |} |} 1 _ _ 0);
    [apply behaves_put|].
  intros s5 Hs5. rewrite <- Hs5. apply behaves_ret.
Qed.

Lemma behaves_notify_user tid user_id message s :
  behaves (UserService.notify_user tid user_id message) s tt (service s) 4.
Proof.
  unfold UserService.notify_user.
  apply behaves_traced. intros _ s1 Hs1. rewrite <- Hs1.
  apply behaves_send_notification.
Qed.

Lemma behaves_handle_notify_request tid user_id s :
  behaves (handle_notify_request tid user_id) s tt (service s) 6.
Proof.
  unfold handle_notify_request.
  apply behaves_traced. intros _ s1 Hs1. rewrite <- Hs1.
  apply (behaves_bind _ _ s1 tt (service s1) 1 _ _ 4);
    [apply behaves_traced_sleep|].
  intros s2 Hs2. rewrite <- Hs2. apply behaves_notify_user.
Qed.

(** The handler around [get_user]: four spans of its own. *)
Lemma behaves_handle_get_user_request tid user_id s value svc k :
  (forall s1, service s1 = service s ->
     behaves (UserService.get_user tid user_id) s1 value svc k) ->
  behaves (handle_get_user_request tid user_id) s tt svc (S (2 + (k + 1))).
Proof.
  unfold handle_get_user_request.
  intros Hget. apply behaves_traced. intros _ s1 Hs1.
  apply (behaves_bind _ _ s1 tt (service s1) 1 _ _ (1 + (k + 1)));
    [apply behaves_traced_sleep|].
  intros s2 Hs2.
  apply (behaves_bind _ _ s2 tt (service s2) 1 _ _ (k + 1));
    [apply behaves_traced_sleep|].
  intros s3 Hs3.
  apply (behaves_bind _ _ s3 value svc k _ _ 1);
    [apply Hget; congruence|].
  intros s4 Hs4. rewrite <- Hs4. apply behaves_traced_sleep.
Qed.

(** [get_user] in either case: the value returned and the cache after. *)
Lemma get_user_hit_or_miss tid user_id s :
  exists s',
    UserService.get_user tid user_id s
    = Returned (default (RPCClient.user_data user_id) (cache_of s !! user_id))
        s'
    /\ cache_of s'
       = match cache_of s !! user_id with
         | Some _ => cache_of s
         | None => <[user_id := RPCClient.user_data user_id]> (cache_of s)
         end.
Proof.
  destruct (cache_of s !! user_id) as [value|] eqn:Hlook.
  - destruct (behaves_get_user_hit tid user_id value s Hlook)
      as (s' & Hrun & Hsvc & _).
    exists s'. split; [exact Hrun|]. unfold cache_of. now rewrite Hsvc.
  - destruct (behaves_get_user_miss tid user_id s Hlook)
      as (s' & Hrun & Hsvc & _).
    exists s'. split; [exact Hrun|]. unfold cache_of at 1. now rewrite Hsvc.
Qed.

(** What one request does to the cache and to the span counter. *)
Lemma behaves_handle r s :
  behaves (handle r) s tt
    match r with
    | GetUser _ user_id =>
        match cache_of s !! user_id with
        | Some _ => service s
        | None =>
            {| cache_ :=
                 {| data_ := <[user_id := RPCClient.user_data user_id]>
                               (cache_of s) |} |}
        end
    | Notify _ _ => service s
    end
    match r with
    | GetUser _ user_id =>
        match cache_of s !! user_id with Some _ => 7 | None => 12 end
    | Notify _ _ => 6
    end%nat.
Proof.
  destruct r as [tid user_id | tid user_id]; simpl handle.
  - destruct (cache_of s !! user_id) as [value|] eqn:Hlook.
    + apply (behaves_handle_get_user_request tid user_id s value _ 3).
      intros s1 Hs1. rewrite <- Hs1. apply behaves_get_user_hit.
      unfold cache_of in *. now rewrite Hs1.
    + apply (behaves_handle_get_user_request tid user_id s
               (RPCClient.user_data user_id) _ 8).
      intros s1 Hs1.
      replace (cache_of s) with (cache_of s1)
        by (unfold cache_of; now rewrite Hs1).
      apply behaves_get_user_miss. unfold cache_of in *. now rewrite Hs1.
  - apply behaves_handle_notify_request.
Qed.

End Behaviour.

(** ** Sequences of requests *)

Section Serving.

Context `{SteadyClock}.

Lemma handle_get tid user_id :
  handle (GetUser tid user_id) = handle_get_user_request tid user_id.
Proof. reflexivity. Qed.

Lemma handle_notify tid user_id :
  handle (Notify tid user_id) = handle_notify_request tid user_id.
Proof. reflexivity. Qed.

Lemma users_asked_nil : users_asked [] = ∅.
Proof. reflexivity. Qed.

Lemma spans_of_no_requests cached : spans_of_requests [] cached = 0%nat.
Proof.
  unfold spans_of_requests. rewrite users_asked_nil.
  replace (∅ ∖ cached) with (∅ : gset Z).
  - now rewrite size_empty.
  - symmetry. apply set_eq. intros x. rewrite elem_of_difference.
    split; [intros [Hx _]; exact Hx | intros Hx; now apply not_elem_of_empty in Hx].
Qed.

Lemma users_asked_get tid user_id rs :
  users_asked (GetUser tid user_id :: rs) = {[user_id]} ∪ users_asked rs.
Proof. reflexivity. Qed.

Lemma users_asked_notify tid user_id rs :
  users_asked (Notify tid user_id :: rs) = users_asked rs.
Proof. reflexivity. Qed.

Lemma size_asked_cached (user_id : Z) (asked cached : gset Z) :
  user_id ∈ cached ->
  size (({[user_id]} ∪ asked) ∖ cached) = size (asked ∖ cached).
Proof.
  intros Hin. f_equal. apply set_eq. intros x.
  rewrite !elem_of_difference, elem_of_union, elem_of_singleton.
  split.
  - intros [[->|Hx] Hn]; [contradiction | now split].
  - intros [Hx Hn]. split; [now right | exact Hn].
Qed.

Lemma size_asked_fetched (user_id : Z) (asked cached : gset Z) :
  user_id ∉ cached ->
  size (({[user_id]} ∪ asked) ∖ cached)
  = S (size (asked ∖ ({[user_id]} ∪ cached))).
Proof.
  intros Hout.
  assert (E : (({[user_id]} ∪ asked) ∖ cached)
    = ({[user_id]} ∪ (asked ∖ ({[user_id]} ∪ cached)) : gset Z)).
  { apply set_eq. intros x. rewrite !elem_of_union, !elem_of_difference, !elem_of_union, !elem_of_singleton.
    split.
    - intros [[->|Hx] Hn]; [left; reflexivity|].
      destruct (decide (x = user_id)) as [->|Hne]; [left; reflexivity|].
      right. split; [exact Hx|]. intros [?|?]; contradiction.
    - intros [->|[Hx Hn]]; [split; [left; reflexivity|exact Hout]|].
      split; [right; exact Hx|]. intros Hc. apply Hn. right. exact Hc. }
  rewrite E.
  rewrite size_union.
  - now rewrite size_singleton.
  - intros x Hx1 Hx2. apply elem_of_singleton in Hx1. subst.
    apply elem_of_difference in Hx2 as [_ Hn]. apply Hn.
    apply elem_of_union. left. now apply elem_of_singleton.
Qed.

Lemma consistent_insert user_id m :
  consistent m -> consistent (<[user_id := RPCClient.user_data user_id]> m).
Proof.
  intros Hm n value. rewrite lookup_insert.
  destruct (decide (user_id = n)) as [->|Hne]; [congruence | apply Hm].
Qed.

(** What a list of requests does: it returns, the cache keeps what it held
    and gains the users asked for, stays consistent if it was, and the
    span counter has advanced by [spans_of_requests]. *)
Lemma serve_behaves rs : forall s,
  exists s',
    serve rs s = Returned tt s'
    /\ cache_of s ⊆ cache_of s'
    /\ dom (cache_of s') = dom (cache_of s) ∪ users_asked rs
    /\ (consistent (cache_of s) -> consistent (cache_of s'))
    /\ counter (process s')
       = advance (spans_of_requests rs (dom (cache_of s)))
           (counter (process s)).
Proof.
  induction rs as [|r rs IH]; intros s.
  - exists s. split; [reflexivity|]. split; [reflexivity|].
    split; [rewrite users_asked_nil; now rewrite union_empty_r_L|].
    split; [tauto|]. now rewrite spans_of_no_requests.
  - destruct (behaves_handle r s) as (s1 & Hr & Hsvc & Hc).
    destruct (IH s1) as (s' & Hrs & Hsub & Hdom & Hcons & Hc').
    exists s'. split.
    { simpl serve. unfold mbind, M_bind, bind. now rewrite Hr. }
    rewrite Hc', Hc, advance_add. clear Hr Hrs Hc Hc' IH.
    destruct r as [tid user_id | tid user_id].
    + destruct (cache_of s !! user_id) as [value|] eqn:Hlook.
      * assert (Hs1 : cache_of s1 = cache_of s)
          by (unfold cache_of; now rewrite Hsvc).
        assert (Hin : user_id ∈ dom (cache_of s))
          by (apply elem_of_dom; eauto).
        rewrite Hs1 in *. rewrite users_asked_get.
        split; [exact Hsub|]. split; [rewrite Hdom; set_solver|].
        split; [exact Hcons|]. f_equal.
        unfold spans_of_requests. rewrite users_asked_get.
        rewrite size_asked_cached by exact Hin. simpl. lia.
      * assert (Hs1 : cache_of s1
                      = <[user_id := RPCClient.user_data user_id]> (cache_of s))
          by (unfold cache_of at 1; now rewrite Hsvc).
        assert (Hout : user_id ∉ dom (cache_of s))
          by (now apply not_elem_of_dom).
        rewrite Hs1 in *. rewrite dom_insert_L in *.
        rewrite users_asked_get.
        split; [etransitivity; [apply insert_subseteq, Hlook | exact Hsub]|].
        split; [rewrite Hdom; set_solver|].
        split; [intros Hm; apply Hcons, consistent_insert, Hm|].
        f_equal. unfold spans_of_requests. rewrite users_asked_get.
        rewrite size_asked_fetched by exact Hout. simpl. lia.
    + assert (Hs1 : cache_of s1 = cache_of s)
        by (unfold cache_of; now rewrite Hsvc).
      rewrite Hs1 in *. rewrite users_asked_notify.
      split; [exact Hsub|]. split; [exact Hdom|]. split; [exact Hcons|].
      f_equal. unfold spans_of_requests. rewrite users_asked_notify.
      simpl. lia.
Qed.

End Serving.

(** ** The cache *)

(** X6.  [get] after [put] of the same key returns the value just put,
    whatever the cache held for that key before and whichever threads make
    the two calls; the other entries of the cache are as they were before
    the [put]. *)
Theorem cache_get_after_put `{SteadyClock} (tid tid' : thread_id_t)
    (key : Z) (value : string) (s : App) :
  exists s',
    (SimpleCache.put tid key value;; SimpleCache.get tid' key) s
    = Returned (Some value) s'
    /\ cache_of s' = <[key := value]> (cache_of s).
Proof.
  destruct (behaves_bind (SimpleCache.put tid key value)
              (fun _ => SimpleCache.get tid' key) s tt
              {| cache_ := {| data_ := <[key := value]> (cache_of s) |} |} 1
              (Some value)
              {| cache_ := {| data_ := <[key := value]> (cache_of s) |} |} 1)
    as (s' & Hrun & Hsvc & _).
  - apply behaves_put.
  - intros s1 Hs1. rewrite <- Hs1.
    replace (Some value) with (cache_of s1 !! key); [apply behaves_get|].
    unfold cache_of. rewrite Hs1. simpl. apply lookup_insert_eq.
  - exists s'. split; [exact Hrun|]. unfold cache_of at 1. now rewrite Hsvc.
Qed.

(** X7.  [put] of one key leaves what [get] returns for every other key:
    the value stored for it, or nothing when the key is absent. *)
Theorem cache_put_keeps_other_keys `{SteadyClock} (tid tid' : thread_id_t)
    (key key' : Z) (value : string) (s : App) :
  key <> key' ->
  exists s',
    (SimpleCache.put tid key value;; SimpleCache.get tid' key') s
    = Returned (cache_of s !! key') s'.
Proof.
  intros Hne.
  destruct (behaves_bind (SimpleCache.put tid key value)
              (fun _ => SimpleCache.get tid' key') s tt
              {| cache_ := {| data_ := <[key := value]> (cache_of s) |} |} 1
              (cache_of s !! key')
              {| cache_ := {| data_ := <[key := value]> (cache_of s) |} |} 1)
    as (s' & Hrun & _).
  - apply behaves_put.
  - intros s1 Hs1. rewrite <- Hs1.
    replace (cache_of s !! key') with (cache_of s1 !! key');
      [apply behaves_get|].
    unfold cache_of at 1. rewrite Hs1. simpl. now apply lookup_insert_ne.
  - exists s'. exact Hrun.
Qed.

Lemma cache_put_keeps_other_keys_witness :
  let s := app_start (fun k => Z.of_nat k) in
  42 <> 99 /\
  exists s',
    (@SimpleCache.put nanosecond_clock 0%nat 42 "alice";;
     @SimpleCache.get nanosecond_clock 1%nat 99) s
    = Returned (cache_of s !! 99) s'.
Proof.
  intros s. split.
  - discriminate.
  - apply (@cache_put_keeps_other_keys nanosecond_clock). discriminate.
Defined.

(** ** The user service *)

(** X8.  On a cache miss [get_user] returns what the RPC backend answers
    for the user, "User data for ID <n>", stores it in the cache under the
    user's id, and has created 8 spans. *)
Theorem get_user_miss `{SteadyClock} (tid : thread_id_t) (user_id : Z)
    (s : App) :
  cache_of s !! user_id = None ->
  exists s',
    UserService.get_user tid user_id s
    = Returned ("User data for ID " +:+ pretty user_id) s'
    /\ cache_of s'
       = <[user_id := "User data for ID " +:+ pretty user_id]> (cache_of s)
    /\ counter (process s') = wrap64 (counter (process s) + 8).
Proof.
  intros Hmiss.
  destruct (behaves_get_user_miss tid user_id s Hmiss)
    as (s' & Hrun & Hsvc & Hc).
  exists s'. split; [exact Hrun|].
  split; [unfold cache_of at 1; now rewrite Hsvc|].
  now rewrite Hc, (advance_wrap 7).
Qed.

Lemma get_user_miss_witness :
  let s := app_start (fun k => Z.of_nat k) in
  cache_of s !! 42 = None /\
  exists s',
    @UserService.get_user nanosecond_clock 0%nat 42 s
    = Returned ("User data for ID " +:+ pretty 42) s'
    /\ cache_of s' = <[42 := "User data for ID " +:+ pretty 42]> (cache_of s)
    /\ counter (process s') = wrap64 (counter (process s) + 8).
Proof.
  intros s. split.
  - reflexivity.
  - apply (@get_user_miss nanosecond_clock). reflexivity.
Defined.

(** X9.  On a cache hit [get_user] returns the cached value as it is (also
    when it differs from what the backend would answer), leaves the cache
    unchanged, and has created 3 spans: the backend is not called. *)
Theorem get_user_hit `{SteadyClock} (tid : thread_id_t) (user_id : Z)
    (value : string) (s : App) :
  cache_of s !! user_id = Some value ->
  exists s',
    UserService.get_user tid user_id s = Returned value s'
    /\ service s' = service s
    /\ counter (process s') = wrap64 (counter (process s) + 3).
Proof.
  intros Hhit.
  destruct (behaves_get_user_hit tid user_id value s Hhit)
    as (s' & Hrun & Hsvc & Hc).
  exists s'. split; [exact Hrun|]. split; [exact Hsvc|].
  now rewrite Hc, (advance_wrap 2).
Qed.

Lemma get_user_hit_witness :
  let s := {| process := process_start;
              service := {| cache_ := {| data_ := {[ 42 := "stale" ]} |} |};
              readings := fun k => Z.of_nat k |} in
  cache_of s !! 42 = Some "stale" /\
  exists s',
    @UserService.get_user nanosecond_clock 0%nat 42 s = Returned "stale" s'
    /\ service s' = service s
    /\ counter (process s') = wrap64 (counter (process s) + 3).
Proof.
  intros s. split.
  - reflexivity.
  - apply (@get_user_hit nanosecond_clock). reflexivity.
Defined.

(** X10.  Asking for the same user twice gives the same answer twice, in
    every state of the cache; the second call is a hit: it leaves the
    service unchanged and creates 3 spans. *)
Theorem get_user_twice `{SteadyClock} (tid tid' : thread_id_t) (user_id : Z)
    (s : App) :
  exists value s1 s2,
    UserService.get_user tid user_id s = Returned value s1
    /\ UserService.get_user tid' user_id s1 = Returned value s2
    /\ service s2 = service s1
    /\ counter (process s2) = wrap64 (counter (process s1) + 3).
Proof.
  destruct (cache_of s !! user_id) as [value|] eqn:Hlook.
  - destruct (get_user_hit_or_miss tid user_id s) as (s1 & Hrun & Hcache).
    rewrite Hlook in Hrun, Hcache.
    destruct (behaves_get_user_hit tid' user_id value s1)
      as (s2 & Hrun2 & Hsvc2 & Hc2); [now rewrite Hcache|].
    exists value, s1, s2. repeat split; try assumption.
    now rewrite Hc2, (advance_wrap 2).
  - destruct (get_user_hit_or_miss tid user_id s) as (s1 & Hrun & Hcache).
    rewrite Hlook in Hrun, Hcache.
    destruct (behaves_get_user_hit tid' user_id
                (RPCClient.user_data user_id) s1)
      as (s2 & Hrun2 & Hsvc2 & Hc2);
      [rewrite Hcache; apply lookup_insert_eq|].
    exists (RPCClient.user_data user_id), s1, s2.
    repeat split; try assumption.
    now rewrite Hc2, (advance_wrap 2).
Qed.

(** ** The RPC client *)

(** X11.  [fetch_user_data] answers different users with different data,
    whatever the threads and the states in which it is called. *)
Theorem fetch_user_data_distinct `{SteadyClock} (tid tid' : thread_id_t)
    (user_id user_id' : Z) (s s' : App) :
  user_id <> user_id' ->
  value_of (RPCClient.fetch_user_data tid user_id s)
  <> value_of (RPCClient.fetch_user_data tid' user_id' s').
Proof.
  intros Hne Heq.
  destruct (behaves_fetch_user_data tid user_id s) as (s1 & Hrun & _).
  destruct (behaves_fetch_user_data tid' user_id' s') as (s1' & Hrun' & _).
  rewrite Hrun, Hrun' in Heq. cbn [value_of] in Heq.
  assert (Hdata : RPCClient.user_data user_id = RPCClient.user_data user_id')
    by congruence.
  unfold RPCClient.user_data in Hdata.
  apply (inj (String.app "User data for ID ")) in Hdata.
  apply (inj pretty) in Hdata. contradiction.
Qed.

Lemma fetch_user_data_distinct_witness :
  let s := app_start (fun k => Z.of_nat k) in
  42 <> 99 /\
  value_of (@RPCClient.fetch_user_data nanosecond_clock 0%nat 42 s)
  <> value_of (@RPCClient.fetch_user_data nanosecond_clock 1%nat 99 s).
Proof.
  intros s. split.
  - discriminate.
  - apply (@fetch_user_data_distinct nanosecond_clock). discriminate.
Defined.

(** X12.  Neither call of the RPC client touches the user service:
    [fetch_user_data] returns "User data for ID <n>" after 4 spans and
    [send_notification] returns after 3, each with the cache as it was. *)
Theorem rpc_client_leaves_service `{SteadyClock} (tid : thread_id_t)
    (user_id : Z) (message : string) (s : App) :
  (exists s',
     RPCClient.fetch_user_data tid user_id s
     = Returned ("User data for ID " +:+ pretty user_id) s'
     /\ service s' = service s
     /\ counter (process s') = wrap64 (counter (process s) + 4))
  /\ exists s',
       RPCClient.send_notification tid user_id message s = Returned tt s'
       /\ service s' = service s
       /\ counter (process s') = wrap64 (counter (process s) + 3).
Proof.
  split.
  - destruct (behaves_fetch_user_data tid user_id s)
      as (s' & Hrun & Hsvc & Hc).
    exists s'. repeat split; try assumption.
    now rewrite Hc, (advance_wrap 3).
  - destruct (behaves_send_notification tid user_id message s)
      as (s' & Hrun & Hsvc & Hc).
    exists s'. repeat split; try assumption.
    now rewrite Hc, (advance_wrap 2).
Qed.

(** ** The request handlers *)

(** X13.  [handle_get_user_request] returns in every state.  When the user
    is cached it leaves the cache unchanged and creates 7 spans; otherwise
    it adds the backend's answer for the user to the cache and creates 12
    spans. *)
Theorem handle_get_user_request_effect `{SteadyClock} (tid : thread_id_t)
    (user_id : Z) (s : App) :
  exists s',
    handle_get_user_request tid user_id s = Returned tt s'
    /\ cache_of s'
       = match cache_of s !! user_id with
         | Some _ => cache_of s
         | None =>
             <[user_id := "User data for ID " +:+ pretty user_id]> (cache_of s)
         end
    /\ counter (process s')
       = wrap64 (counter (process s)
                 + match cache_of s !! user_id with
                   | Some _ => 7
                   | None => 12
                   end).
Proof.
  destruct (behaves_handle (GetUser tid user_id) s) as (s' & Hrun & Hsvc & Hc).
  rewrite handle_get in Hrun.
  exists s'. split; [exact Hrun|].
  destruct (cache_of s !! user_id) as [value|].
  - split; [unfold cache_of; now rewrite Hsvc|].
    now rewrite Hc, (advance_wrap 6).
  - split; [unfold cache_of at 1; now rewrite Hsvc|].
    now rewrite Hc, (advance_wrap 11).
Qed.

(** X14.  [handle_notify_request] returns in every state, leaves the user
    service as it was and creates 6 spans. *)
Theorem handle_notify_request_effect `{SteadyClock} (tid : thread_id_t)
    (user_id : Z) (s : App) :
  exists s',
    handle_notify_request tid user_id s = Returned tt s'
    /\ service s' = service s
    /\ counter (process s') = wrap64 (counter (process s) + 6).
Proof.
  destruct (behaves_handle_notify_request tid user_id s)
    as (s' & Hrun & Hsvc & Hc).
  exists s'. repeat split; try assumption.
  now rewrite Hc, (advance_wrap 5).
Qed.

(** X15.  Serving any list of requests returns; the cache loses and changes
    no entry, and afterwards holds exactly the users it held before and
    the users that the [GetUser] requests asked for. *)
Theorem serve_cache_grows `{SteadyClock} (rs : list request) (s : App) :
  exists s',
    serve rs s = Returned tt s'
    /\ cache_of s ⊆ cache_of s'
    /\ dom (cache_of s') = dom (cache_of s) ∪ users_asked rs.
Proof.
  destruct (serve_behaves rs s) as (s' & Hrun & Hsub & Hdom & _).
  exists s'. repeat split; assumption.
Qed.

(** X16.  When every cached entry is the backend's answer for its key, as
    in the empty cache, then after any list of requests [get_user] returns
    the backend's answer "User data for ID <n>" for every user [n], cached
    or not. *)
Theorem get_user_transparent `{SteadyClock} (rs : list request)
    (tid : thread_id_t) (user_id : Z) (s : App) :
  consistent (cache_of s) ->
  exists s1 s2,
    serve rs s = Returned tt s1
    /\ UserService.get_user tid user_id s1
       = Returned ("User data for ID " +:+ pretty user_id) s2.
Proof.
  intros Hcons.
  destruct (serve_behaves rs s) as (s1 & Hrun & _ & _ & Hcons1 & _).
  destruct (get_user_hit_or_miss tid user_id s1) as (s2 & Hget & _).
  exists s1, s2. split; [exact Hrun|]. rewrite Hget. f_equal.
  destruct (cache_of s1 !! user_id) as [value|] eqn:Hlook; [|reflexivity].
  simpl. apply (Hcons1 Hcons user_id value Hlook).
Qed.

Lemma get_user_transparent_witness :
  let s := app_start (fun k => Z.of_nat k) in
  let rs := [GetUser 0%nat 42; GetUser 0%nat 42; GetUser 0%nat 99;
             Notify 0%nat 42] in
  consistent (cache_of s) /\
  exists s1 s2,
    @serve nanosecond_clock rs s = Returned tt s1
    /\ @UserService.get_user nanosecond_clock 1%nat 42 s1
       = Returned ("User data for ID " +:+ pretty 42) s2.
Proof.
  intros s rs.
  assert (Hcons : consistent (cache_of s)).
  { intros n value Hlook.
    change (cache_of s) with (∅ : gmap Z string) in Hlook.
    rewrite lookup_empty in Hlook. discriminate. }
  split.
  - exact Hcons.
  - apply (@get_user_transparent nanosecond_clock rs 1%nat 42 s Hcons).
Defined.

(** X17.  Serving a list of requests creates 6 spans for each notification,
    7 for each user request and 5 more for each distinct user asked for
    that was not in the cache at the start: the backend is fetched from
    once per such user. *)
Theorem serve_span_count `{SteadyClock} (rs : list request) (s : App) :
  0 <= counter (process s) < uint64_modulus ->
  exists s',
    serve rs s = Returned tt s'
    /\ counter (process s')
       = wrap64 (counter (process s)
                 + 6 * Z.of_nat (count_notifies rs)
                 + 7 * Z.of_nat (count_gets rs)
                 + 5 * Z.of_nat (size (users_asked rs ∖ dom (cache_of s)))).
Proof.
  intros Hrange.
  destruct (serve_behaves rs s) as (s' & Hrun & _ & _ & _ & Hc).
  exists s'. split; [exact Hrun|]. rewrite Hc.
  unfold spans_of_requests.
  set (n := count_notifies rs). set (g := count_gets rs).
  set (f := size (users_asked rs ∖ dom (cache_of s))).
  destruct (6 * n + 7 * g + 5 * f)%nat as [|k] eqn:Hk.
  - simpl. rewrite wrap64_small by lia. lia.
  - rewrite advance_wrap. f_equal. lia.
Qed.

Lemma serve_span_count_witness :
  let s := app_start (fun k => Z.of_nat k) in
  let rs := [GetUser 0%nat 42; GetUser 0%nat 42; GetUser 0%nat 99;
             Notify 0%nat 42] in
  0 <= counter (process s) < uint64_modulus /\
  exists s',
    @serve nanosecond_clock rs s = Returned tt s'
    /\ counter (process s')
       = wrap64 (counter (process s)
                 + 6 * Z.of_nat (count_notifies rs)
                 + 7 * Z.of_nat (count_gets rs)
                 + 5 * Z.of_nat (size (users_asked rs ∖ dom (cache_of s)))).
Proof.
  intros s rs.
  assert (Hrange : 0 <= counter (process s) < uint64_modulus)
    by (split; vm_compute; [discriminate | reflexivity]).
  split.
  - exact Hrange.
  - apply (@serve_span_count nanosecond_clock rs s Hrange).
Defined.

(** ** Thread-local contexts *)

(** X18.  Constructing a guard on one thread, or destroying one there, in
    any state of the process, leaves [TraceContext::instance()] of every
    thread with the contents it had, and the destruction leaves the span
    counter alone. *)
Theorem guard_keeps_every_context `{SteadyClock} (tid tid' : thread_id_t)
    (now : time_point) (name : string) (self : TraceSpan.t) (p : Process) :
  context_of (state_of (TraceSpan.ctor tid now name p)) tid'
  = context_of p tid'
  /\ context_of (state_of (TraceSpan.dtor tid now self p)) tid'
     = context_of p tid'
  /\ counter (state_of (TraceSpan.dtor tid now self p)) = counter p.
Proof.
  assert (Hsame : forall q, context_of (set_context tid (context_of q tid) q) tid'
                            = context_of q tid').
  { intros q. rewrite context_of_set_context.
    destruct (decide (tid = tid')) as [->|Hne]; reflexivity. }
  split; [|split].
  - rewrite ctor_returns. cbn [state_of]. cbv zeta.
    rewrite !Hsame. apply context_of_set_counter_eq.
  - change (state_of (TraceSpan.dtor tid now self p))
      with (set_context tid (context_of p tid) p).
    apply Hsame.
  - reflexivity.
Qed.

(** ** Scopes of the example and scopes of the header *)

(** A traced scope of the example whose body only runs in the header's
    state is the scope [with_span] of the header, given the two clock
    readings it takes. *)
Lemma traced_is_with_span `{SteadyClock} {A} (tid : thread_id_t)
    (name : string) (body : TraceSpan.t -> M Process A) (s : App) :
  process (state_of (traced tid name (fun guard => zoom_process (body guard)) s))
  = state_of (with_span tid (readings s 0%nat) (readings s 1%nat) name body
                (process s)).
Proof.
  rewrite traced_unfold. unfold with_span. rewrite ctor_returns.
  unfold entered. rewrite ctor_returns. cbn [fst snd].
  unfold zoom_process. cbn [process service readings].
  match goal with |- context [body ?g ?p] => destruct (body g p) end;
    reflexivity.
Qed.
